(* ===================================================================== *)
(* Chat.tsx: the AI chat session controller                               *)
(*                                                                        *)
(* A shallow embedding of src/components/Chat.tsx: the `speak` helper,    *)
(* the `useSpeechRecognition` hook and the `AIChat` component, seen as    *)
(* an event-driven state machine.  Every browser or promise completion    *)
(* is one event; the handler registered for it runs against the values    *)
(* captured at the last render, queues its state updates, and the         *)
(* `useEffect` bodies whose dependencies changed run afterwards.          *)
(* ===================================================================== *)

From Stdlib Require Import QArith.
From stdpp Require Import base strings list gmap.

Open Scope string_scope.
Open Scope list_scope.

(* --------------------------------------------------------------------- *)
(* JavaScript strings                                                     *)
(* --------------------------------------------------------------------- *)

(* A JavaScript string is modelled as a Rocq [string] whose characters
   are the code units 0..255.  Within that range the code units that
   String.prototype.trim removes (ECMAScript WhiteSpace and
   LineTerminator) are TAB, LF, VT, FF, CR, SPACE and NBSP. *)
Definition is_whitespace (a : Ascii.ascii) : bool :=
  let n := Ascii.nat_of_ascii a in
  (n =? 9)%nat || (n =? 10)%nat || (n =? 11)%nat || (n =? 12)%nat ||
  (n =? 13)%nat || (n =? 32)%nat || (n =? 160)%nat.

Fixpoint trimStart (s : string) : string :=
  match s with
  | EmptyString => EmptyString
  | String a r => if is_whitespace a then trimStart r else s
  end.

Fixpoint trimEnd (s : string) : string :=
  match s with
  | EmptyString => EmptyString
  | String a r =>
      match trimEnd r with
      | EmptyString => if is_whitespace a then EmptyString else String a EmptyString
      | r' => String a r'
      end
  end.

(* String.prototype.trim *)
Definition trim (s : string) : string := trimEnd (trimStart s).

(* JavaScript truthiness of a string: every string but '' is truthy. *)
Definition truthy (s : string) : bool :=
  match s with EmptyString => false | _ => true end.


(* --------------------------------------------------------------------- *)
(* JavaScript values and errors                                           *)
(* --------------------------------------------------------------------- *)

(* The untyped objects the DOM hands to a handler: just enough of the
   value space to read a property path such as [e.target.value]. *)
#[warnings="-register-all"]
Inductive JsValue : Type :=
  | JsUndefined
  | JsStr (s : string)
  | JsObj (props : gmap string JsValue).

Inductive JsError : Type :=
  | TypeError (msg : string).

(* The member expression [v.k].  Reading a property of [undefined] throws
   a TypeError; an object yields the stored value or [undefined]; a string
   primitive has none of the property names this file reads. *)
Definition get_prop (v : JsValue) (k : string) : JsError + JsValue :=
  match v with
  | JsUndefined =>
      inl (TypeError ("Cannot read properties of undefined (reading '" +:+ k +:+ "')"))
  | JsStr _ => inr JsUndefined
  | JsObj props => inr (default JsUndefined (props !! k))
  end.

(* The change event React delivers to an <input>'s onChange when the user
   has typed so that the field holds [t]. *)
Definition changeEvent (t : string) : gmap string JsValue :=
  {[ "type" := JsStr "change";
     "target" := JsObj {[ "value" := JsStr t ]} ]}.

(* --------------------------------------------------------------------- *)
(* Data model                                                             *)
(* --------------------------------------------------------------------- *)

(* ChatMessage of ../types, as Chat.tsx builds and reads it. *)
Inductive Role : Type := user | model.

Record ChatMessage : Type := { role : Role; content : string }.

(* AIChatProps.storageConsent *)
Inductive Consent : Type := pending | accepted | declined.

Definition is_accepted (c : Consent) : bool :=
  match c with accepted => true | _ => false end.

(* SpeechSynthesisUtterance as [speak] configures it. *)
Record Utterance : Type := { utterance_text : string; lang : string; rate : Q }.

(* One entry of SpeechRecognitionEvent.results: results[i].isFinal and
   results[i][0].transcript (the engine always supplies alternative 0). *)
Record SpeechRecognitionAlternative : Type := { transcript : string }.

Record SpeechRecognitionResult : Type :=
  { isFinal : bool; alternative0 : SpeechRecognitionAlternative }.

(* The React state of AIChat together with the state of the
   useSpeechRecognition hook it calls.  [inFlight] is bookkeeping that the
   component does not store: the number of getChatResponse promises that
   have been created and not yet settled. *)
Record State : Type := {
  messages : list ChatMessage;
  input : string;
  isLoading : bool;
  speechText : string;      (* the hook's [text] *)
  isRecording : bool;
  inFlight : nat
}.

Definition with_messages (ms : list ChatMessage) (s : State) : State :=
  {| messages := ms; input := input s; isLoading := isLoading s;
     speechText := speechText s; isRecording := isRecording s; inFlight := inFlight s |}.

Definition with_input (v : string) (s : State) : State :=
  {| messages := messages s; input := v; isLoading := isLoading s;
     speechText := speechText s; isRecording := isRecording s; inFlight := inFlight s |}.

Definition with_isLoading (b : bool) (s : State) : State :=
  {| messages := messages s; input := input s; isLoading := b;
     speechText := speechText s; isRecording := isRecording s; inFlight := inFlight s |}.

Definition with_speechText (v : string) (s : State) : State :=
  {| messages := messages s; input := input s; isLoading := isLoading s;
     speechText := v; isRecording := isRecording s; inFlight := inFlight s |}.

Definition with_isRecording (b : bool) (s : State) : State :=
  {| messages := messages s; input := input s; isLoading := isLoading s;
     speechText := speechText s; isRecording := b; inFlight := inFlight s |}.

Definition with_inFlight (n : nat) (s : State) : State :=
  {| messages := messages s; input := input s; isLoading := isLoading s;
     speechText := speechText s; isRecording := isRecording s; inFlight := n |}.

(* const initialMessage *)
Definition initialMessage : ChatMessage :=
  {| role := model;
     content := "Hello! I'm your health & wellness assistant. You can ask me general questions about health topics. How can I help you today?" +:+ String (Ascii.ascii_of_nat 10) (String (Ascii.ascii_of_nat 10) "Remember, I am not a doctor and this is not medical advice.") |}.

(* const errorMessage, in the catch branch of handleSendMessage *)
Definition errorMessage : ChatMessage :=
  {| role := model;
     content := "Sorry, I encountered an error. Please try again. " +:+ String (Ascii.ascii_of_nat 10) (String (Ascii.ascii_of_nat 10) "Disclaimer: This is for informational purposes only and not a substitute for professional medical advice.") |}.

(* --------------------------------------------------------------------- *)
(* The component                                                          *)
(* --------------------------------------------------------------------- *)

Section AIChat.

(* PrescriptionData of ../types: an opaque document that the component
   only passes through to getChatResponse. *)
Context {PrescriptionData : Type}.

(* What the component is given and what the browser offers: the two
   props, whether window.SpeechRecognition (or the webkit-prefixed one)
   exists, so that recognitionRef.current is set on mount, and whether
   window.speechSynthesis exists. *)
Record Env : Type := {
  prescriptionData : option PrescriptionData;
  storageConsent : Consent;
  hasSpeechRecognition : bool;
  hasSpeechSynthesis : bool
}.

(* Calls that leave the component, in the order they are made. *)
Inductive Effect : Type :=
  | LoadChatHistory                                   (* loadChatHistory() *)
  | SaveChatHistory (ms : list ChatMessage)           (* saveChatHistory(messages) *)
  | ClearChatHistory                                  (* clearChatHistory() *)
  | GetChatResponse (chatHistory : list ChatMessage)
                    (pd : option PrescriptionData)    (* getChatResponse(...) *)
  | SynthCancel                                       (* window.speechSynthesis.cancel() *)
  | SynthSpeak (u : Utterance)                        (* window.speechSynthesis.speak(u) *)
  | RecognitionStart                                  (* recognition.start() *)
  | RecognitionStop                                   (* recognition.stop() *)
  | ConsoleWarn (msg : string)
  | ConsoleError (label : string) (detail : string)
  | PreventDefault.                                   (* e.preventDefault() *)

Definition is_persistence (e : Effect) : bool :=
  match e with
  | LoadChatHistory | SaveChatHistory _ | ClearChatHistory => true
  | _ => false
  end.

Definition is_generation (e : Effect) : bool :=
  match e with GetChatResponse _ _ => true | _ => false end.

(* ----- a small monad for handler bodies ------------------------------ *)

(* While a handler runs, React queues its state updates; [cur] is the
   state with the updates queued so far applied, [msgsSet] records that
   setMessages was called (a fresh array, so the [messages] dependency of
   the save effect has changed), [log] is the calls made so far. *)
Record Store : Type := { cur : State; msgsSet : bool; log : list Effect }.

Inductive Completion : Type :=
  | Normal
  | Throw (err : JsError).

Definition Prog : Type := Store -> Store * Completion.

Definition skip : Prog := fun st => (st, Normal).

Definition seq (p q : Prog) : Prog :=
  fun st => match p st with
            | (st', Normal) => q st'
            | (st', Throw err) => (st', Throw err)
            end.

Definition throw (err : JsError) : Prog := fun st => (st, Throw err).

Definition when (b : bool) (p : Prog) : Prog := if b then p else skip.

Definition emit (e : Effect) : Prog :=
  fun st => ({| cur := cur st; msgsSet := msgsSet st; log := log st ++ [e] |}, Normal).

(* A call of a helper that only makes outside calls. *)
Definition call (es : list Effect) : Prog :=
  fun st => ({| cur := cur st; msgsSet := msgsSet st; log := log st ++ es |}, Normal).

Definition update (f : State -> State) : Prog :=
  fun st => ({| cur := f (cur st); msgsSet := msgsSet st; log := log st |}, Normal).

(* setMessages(prev => f prev) *)
Definition setMessages (f : list ChatMessage -> list ChatMessage) : Prog :=
  fun st => ({| cur := with_messages (f (messages (cur st))) (cur st);
                msgsSet := true; log := log st |}, Normal).

Definition setInput (v : string) : Prog := update (with_input v).
Definition setIsLoading (b : bool) : Prog := update (with_isLoading b).
Definition setText (v : string) : Prog := update (with_speechText v).
Definition setIsRecording (b : bool) : Prog := update (with_isRecording b).

Declare Scope prog_scope.
Delimit Scope prog_scope with prog.
Bind Scope prog_scope with Prog.
Notation "p ;; q" := (seq p q)
  (at level 100, q at level 200, right associativity) : prog_scope.
Local Open Scope prog_scope.

Variable env : Env.

(* ----- speech playback ----------------------------------------------- *)

(* const speak = (text: string) => { ... }: the calls it makes.  It reads
   and writes no React state. *)
Definition speak (text : string) : list Effect :=
  if negb (hasSpeechSynthesis env) then
    [ConsoleWarn "Browser does not support SpeechSynthesis."]
  else
    [SynthCancel;
     SynthSpeak {| utterance_text := text; lang := "en-US"; rate := 1 |}].

(* The bare expression [window.speechSynthesis.cancel()] of
   handleSendMessage and handleClearChat: a method call on
   [window.speechSynthesis], which is [undefined] when the browser has no
   speech synthesis. *)
Definition speechSynthesis_cancel : Prog :=
  if hasSpeechSynthesis env then emit SynthCancel
  else throw (TypeError "Cannot read properties of undefined (reading 'cancel')").

(* ----- useSpeechRecognition ------------------------------------------ *)

(* The for loop of recognition.onresult: the pair
   (finalTranscript, interimTranscript) after the last iteration. *)
Definition onresult_loop (results : list SpeechRecognitionResult) : string * string :=
  fold_left
    (fun acc r =>
       if isFinal r
       then (acc.1 +:+ transcript (alternative0 r), acc.2)
       else (acc.1, acc.2 +:+ transcript (alternative0 r)))
    results ("", "").

(* The argument of setText in recognition.onresult. *)
Definition liveText (results : list SpeechRecognitionResult) : string :=
  (onresult_loop results).1 +:+ (onresult_loop results).2.

Definition onresult (results : list SpeechRecognitionResult) : Prog :=
  setText (liveText results).

Definition onerror (error : string) : Prog :=
  emit (ConsoleError "Speech recognition error:" error).

Definition onend : Prog := setIsRecording false.

(* [s] is the state of the render whose closures the handler captured. *)
Definition startRecording (s : State) : Prog :=
  when (hasSpeechRecognition env && negb (isRecording s))
    (setText "" ;; emit RecognitionStart ;; setIsRecording true).

Definition stopRecording (s : State) : Prog :=
  when (hasSpeechRecognition env && isRecording s)
    (emit RecognitionStop ;; setIsRecording false).

(* ----- AIChat handlers ----------------------------------------------- *)

Inductive FormEvent : Type := formEvent.

(* The bookkeeping of [inFlight]. *)
Definition issued : Prog := update (fun c => with_inFlight (S (inFlight c)) c).
Definition settled : Prog := update (fun c => with_inFlight (Nat.pred (inFlight c)) c).

(* if (e) e.preventDefault(); *)
Definition preventDefault (e : option FormEvent) : list Effect :=
  match e with Some _ => [PreventDefault] | None => [] end.

(* handleSendMessage, up to and including the call of getChatResponse. *)
Definition handleSendMessage (s : State) (e : option FormEvent) : Prog :=
  call (preventDefault e) ;;
  if negb (truthy (trim (input s))) || isLoading s then skip
  else
    when (isRecording s) (stopRecording s) ;;
    speechSynthesis_cancel ;;
    let userMessage := {| role := user; content := input s |} in
    setMessages (fun prev => prev ++ [userMessage]) ;;
    setInput "" ;;
    setText "" ;;
    setIsLoading true ;;
    emit (GetChatResponse (messages s ++ [userMessage]) (prescriptionData env)) ;;
    issued.

(* handleSendMessage after the await, when the promise is fulfilled with
   [response]: the rest of the try block, then the finally block. *)
Definition handleSendMessage_then (response : string) : Prog :=
  settled ;;
  let modelMessage := {| role := model; content := response |} in
  setMessages (fun prev => prev ++ [modelMessage]) ;;
  call (speak (content modelMessage)) ;;
  setIsLoading false.

(* handleSendMessage after the await, when the promise is rejected with
   [error]: the catch block, then the finally block. *)
Definition handleSendMessage_catch (error : string) : Prog :=
  settled ;;
  emit (ConsoleError "Chat error:" error) ;;
  setMessages (fun prev => prev ++ [errorMessage]) ;;
  call (speak (content errorMessage)) ;;
  setIsLoading false.

Definition handleClearChat (s : State) : Prog :=
  when (is_accepted (storageConsent env)) (emit ClearChatHistory) ;;
  setMessages (fun _ => [initialMessage]) ;;
  speechSynthesis_cancel ;;
  when (isRecording s) (stopRecording s).

Definition handleToggleRecording (s : State) : Prog :=
  if isRecording s then stopRecording s else startRecording s.

(* onChange={e => setInput(e.targe.value)}.  setInput is typed to take a
   string; were the path to yield anything else, the next render would
   fail on [input.trim()]. *)
Definition onChange (e : gmap string JsValue) : Prog :=
  match get_prop (JsObj e) "targe" with
  | inl err => throw err
  | inr targe =>
      match get_prop targe "value" with
      | inl err => throw err
      | inr (JsStr v) => setInput v
      | inr _ => throw (TypeError "input.trim is not a function")
      end
  end.

(* ----- events, rendering and effects --------------------------------- *)

(* Everything that can call into the component after it has mounted. *)
Inductive Event : Type :=
  | Submit (e : option FormEvent)            (* the form's onSubmit *)
  | Change (e : gmap string JsValue)         (* the text field's onChange *)
  | ClickMic                                 (* the microphone button's onClick *)
  | ClickClear                               (* the Clear Chat button's onClick *)
  | RecognitionResult (results : list SpeechRecognitionResult)
  | RecognitionError (error : string)
  | RecognitionEnd
  | ResponseFulfilled (response : string)    (* getChatResponse resolved *)
  | ResponseRejected (error : string).       (* getChatResponse rejected *)

(* The handler an event reaches.  The recognition callbacks exist only
   when a recognition object was created on mount; a promise can only
   settle if one is outstanding. *)
Definition handler (ev : Event) (s : State) : Prog :=
  match ev with
  | Submit e => handleSendMessage s e
  | Change e => onChange e
  | ClickMic => handleToggleRecording s
  | ClickClear => handleClearChat s
  | RecognitionResult results => when (hasSpeechRecognition env) (onresult results)
  | RecognitionError error => when (hasSpeechRecognition env) (onerror error)
  | RecognitionEnd => when (hasSpeechRecognition env) onend
  | ResponseFulfilled response => when (0 <? inFlight s)%nat (handleSendMessage_then response)
  | ResponseRejected error => when (0 <? inFlight s)%nat (handleSendMessage_catch error)
  end.

(* useEffect(() => { if (storageConsent === 'accepted' &&
   messages.length > 1) saveChatHistory(messages); },
   [messages, storageConsent]) *)
Definition saveEffect (ms : list ChatMessage) : list Effect :=
  if is_accepted (storageConsent env) && (1 <? length ms)%nat
  then [SaveChatHistory ms] else [].

(* useEffect(() => { if (speechText) setInput(speechText); },
   [speechText]) *)
Definition speechEffect (c : State) : State :=
  if truthy (speechText c) then with_input (speechText c) c else c.

Record Outcome : Type := {
  next : State;
  trace : list Effect;
  completion : Completion
}.

(* The render after a handler ran from the render [s]: the queued updates
   are applied (also when the handler threw after queueing them), then the
   effects whose dependencies changed run, in the order of declaration. *)
Definition commit (s : State) (r : Store * Completion) : Outcome :=
  let c := cur r.1 in
  {| next := if bool_decide (speechText c = speechText s) then c else speechEffect c;
     trace := log r.1 ++ (if msgsSet r.1 then saveEffect (messages c) else []);
     completion := r.2 |}.

(* One event, delivered to its handler. *)
Definition dispatch (ev : Event) (s : State) : Outcome :=
  commit s (handler ev s {| cur := s; msgsSet := false; log := [] |}).

(* The [disabled] attributes of the rendered form controls. *)
Record View : Type := {
  input_disabled : bool;      (* <input disabled={isLoading}> *)
  mic_disabled : bool;        (* microphone <button disabled={isLoading}> *)
  send_disabled : bool        (* <button type="submit" disabled={isLoading || !input.trim()}> *)
}.

Definition render (s : State) : View :=
  {| input_disabled := isLoading s;
     mic_disabled := isLoading s;
     send_disabled := isLoading s || negb (truthy (trim (input s))) |}.

(* A disabled control raises no event; a form whose submit button is
   disabled is not submitted.  The Clear Chat button is never disabled,
   and the engine and promise events do not pass through a control. *)
Definition blocked (v : View) (ev : Event) : bool :=
  match ev with
  | Submit _ => send_disabled v
  | Change _ => input_disabled v
  | ClickMic => mic_disabled v
  | _ => false
  end.

(* One event, as the user interface lets it through. *)
Definition step (ev : Event) (s : State) : Outcome :=
  if blocked (render s) ev
  then {| next := s; trace := []; completion := Normal |}
  else dispatch ev s.

(* ----- the session ---------------------------------------------------- *)

(* The useState initializer of [messages]; [saved] is what
   loadChatHistory() returns when it is called. *)
Definition initialMessages (saved : option (list ChatMessage)) : list ChatMessage :=
  if is_accepted (storageConsent env) then
    match saved with
    | Some savedMessages =>
        if (0 <? length savedMessages)%nat then savedMessages else [initialMessage]
    | None => [initialMessage]
    end
  else [initialMessage].

(* The first render and the effects that run after it. *)
Definition mount (saved : option (list ChatMessage)) : Outcome :=
  let ms := initialMessages saved in
  {| next := {| messages := ms; input := ""; isLoading := false;
                speechText := ""; isRecording := false; inFlight := 0 |};
     trace := (if is_accepted (storageConsent env) then [LoadChatHistory] else [])
              ++ (if hasSpeechRecognition env then []
                  else [ConsoleWarn "Browser does not support SpeechRecognition."])
              ++ saveEffect ms;
     completion := Normal |}.

(* A run of events from state [s]: the final state and all calls made. *)
Fixpoint run (deliver : Event -> State -> Outcome) (evs : list Event) (s : State)
  : State * list Effect :=
  match evs with
  | [] => (s, [])
  | ev :: evs' =>
      let o := deliver ev s in
      let r := run deliver evs' (next o) in
      (r.1, trace o ++ r.2)
  end.

Definition session (deliver : Event -> State -> Outcome)
  (saved : option (list ChatMessage)) (evs : list Event) : State * list Effect :=
  let o := mount saved in
  let r := run deliver evs (next o) in
  (r.1, trace o ++ r.2).

(* The states a session can be in. *)
Inductive reachable (saved : option (list ChatMessage)) : State -> Prop :=
  | reachable_mount : reachable saved (next (mount saved))
  | reachable_dispatch s ev :
      reachable saved s -> reachable saved (next (dispatch ev s)).

End AIChat.

Arguments Env : clear implicits.
Arguments Effect : clear implicits.
Arguments Store : clear implicits.
Arguments Prog : clear implicits.
Arguments Outcome : clear implicits.

(* --------------------------------------------------------------------- *)
(* Vocabulary of the properties                                           *)
(* --------------------------------------------------------------------- *)

(* Concatenation of a list of strings, first to last. *)
Definition join (l : list string) : string := foldr String.append "" l.

Definition transcript_of (r : SpeechRecognitionResult) : string :=
  transcript (alternative0 r).

(* The results' transcripts concatenated in the order they were reported. *)
Definition in_order_text (results : list SpeechRecognitionResult) : string :=
  join (map transcript_of results).

Definition finalized (results : list SpeechRecognitionResult) : list SpeechRecognitionResult :=
  List.filter isFinal results.

Definition interim (results : list SpeechRecognitionResult) : list SpeechRecognitionResult :=
  List.filter (fun r => negb (isFinal r)) results.

(* The shape of the results list of a SpeechRecognitionEvent: the
   finalized entries come first and the interim ones, if any, trail them,
   so no interim entry is reported before a finalized one. *)
Fixpoint finals_first (results : list SpeechRecognitionResult) : bool :=
  match results with
  | [] => true
  | r :: rest =>
      if isFinal r then finals_first rest
      else forallb (fun r' => negb (isFinal r')) rest
  end.

Definition no_persistence {PD : Type} (t : list (Effect PD)) : Prop :=
  Forall (fun e => is_persistence e = false) t.

Definition no_generation {PD : Type} (t : list (Effect PD)) : Prop :=
  Forall (fun e => is_generation e = false) t.

(* The busy flag counts the outstanding request. *)
Definition busy_counts (s : State) : Prop :=
  inFlight s = if isLoading s then 1 else 0.

(* Outcome of an event that changed nothing and called nothing. *)
Definition unchanged {PD : Type} (s : State) : Outcome PD :=
  {| next := s; trace := []; completion := Normal |}.

(* Every character of the string is one that trim removes. *)
Fixpoint all_whitespace (s : string) : bool :=
  match s with
  | EmptyString => true
  | String a r => is_whitespace a && all_whitespace r
  end.

Definition is_recognition_call {PD : Type} (e : Effect PD) : bool :=
  match e with RecognitionStart | RecognitionStop => true | _ => false end.

Definition is_synthesis_call {PD : Type} (e : Effect PD) : bool :=
  match e with SynthCancel | SynthSpeak _ => true | _ => false end.

Definition no_recognition_calls {PD : Type} (t : list (Effect PD)) : Prop :=
  Forall (fun e => is_recognition_call e = false) t.

Definition no_synthesis_calls {PD : Type} (t : list (Effect PD)) : Prop :=
  Forall (fun e => is_synthesis_call e = false) t.

(* Every speechSynthesis.speak in the trace comes directly after a
   speechSynthesis.cancel; [cancelled] tells whether the call before the
   trace was a cancel. *)
Fixpoint speak_follows_cancel {PD : Type} (cancelled : bool) (t : list (Effect PD)) : bool :=
  match t with
  | [] => true
  | SynthCancel :: t' => speak_follows_cancel true t'
  | SynthSpeak _ :: t' => cancelled && speak_follows_cancel false t'
  | _ :: t' => speak_follows_cancel false t'
  end.

(* Whether the trace leaves a recognition.start() that no
   recognition.stop() has followed; [started] tells the same of the calls
   before the trace. *)
Fixpoint started_after {PD : Type} (started : bool) (t : list (Effect PD)) : bool :=
  match t with
  | [] => started
  | RecognitionStart :: t' => started_after true t'
  | RecognitionStop :: t' => started_after false t'
  | _ :: t' => started_after started t'
  end.

(* Every recognition.stop() in the trace has a recognition.start() before
   it with no other stop in between. *)
Fixpoint stop_follows_start {PD : Type} (started : bool) (t : list (Effect PD)) : bool :=
  match t with
  | [] => true
  | RecognitionStart :: t' => stop_follows_start true t'
  | RecognitionStop :: t' => started && stop_follows_start false t'
  | _ :: t' => stop_follows_start started t'
  end.

(* What a save call may carry: only with consent accepted, and only a
   transcript of two messages or more. *)
Definition save_allowed {PD : Type} (env : Env PD) (e : Effect PD) : Prop :=
  match e with
  | SaveChatHistory ms => storageConsent env = accepted /\ 2 <= length ms
  | _ => True
  end.

Definition is_save {PD : Type} (e : Effect PD) : bool :=
  match e with SaveChatHistory _ => true | _ => false end.

(* A way of delivering events that, like [dispatch] and [step], either
   runs the handler or does nothing. *)
Definition delivers {PD : Type} (env : Env PD)
  (deliver : Event -> State -> Outcome PD) : Prop :=
  forall ev s, deliver ev s = unchanged s \/ deliver ev s = dispatch env ev s.

(* ----- sample environments and states -------------------------------- *)

Definition segment (isFinal : bool) (text : string) : SpeechRecognitionResult :=
  {| isFinal := isFinal; alternative0 := {| transcript := text |} |}.

(* A browser with both speech capabilities. *)
Definition browser (c : Consent) : Env unit :=
  {| prescriptionData := None; storageConsent := c;
     hasSpeechRecognition := true; hasSpeechSynthesis := true |}.

(* A browser with speech recognition but without speech synthesis. *)
Definition mute_browser (c : Consent) : Env unit :=
  {| prescriptionData := None; storageConsent := c;
     hasSpeechRecognition := true; hasSpeechSynthesis := false |}.

(* A browser with speech synthesis but without speech recognition. *)
Definition deaf_browser (c : Consent) : Env unit :=
  {| prescriptionData := None; storageConsent := c;
     hasSpeechRecognition := false; hasSpeechSynthesis := true |}.

(* A fresh session with nothing saved. *)
Definition fresh (env : Env unit) : State := next (mount env None).

(* A fresh session after the user switched recording on, the engine
   reported [t] as one finalized segment (which the effect on [speechText]
   copies into the text field), and the user switched recording off. *)
Definition dictated (env : Env unit) (t : string) : State :=
  (run (step env) [ClickMic; RecognitionResult [segment true t]; ClickMic]
     (fresh env)).1.

(* That session after [t] was submitted and before the response arrived. *)
Definition awaiting (env : Env unit) (t : string) : State :=
  next (step env (Submit None) (dictated env t)).

(* --------------------------------------------------------------------- *)
(* Properties                                                             *)
(* --------------------------------------------------------------------- *)

Example trim_both_ends : trim "  hi there  " = "hi there".
Proof. reflexivity. Qed.

Example trim_blank : trim (String (Ascii.ascii_of_nat 9) "  ") = "".
Proof. reflexivity. Qed.

Example awaiting_is_busy :
  isLoading (awaiting (browser accepted) "hi") = true /\
  inFlight (awaiting (browser accepted) "hi") = 1.
Proof. split; reflexivity. Qed.

Section Recognition.

Implicit Types results : list SpeechRecognitionResult.

Lemma string_app_cons (a : Ascii.ascii) (x y : string) :
  String a x +:+ y = String a (x +:+ y).
Proof. reflexivity. Qed.

Lemma string_app_nil_r (x : string) : x +:+ "" = x.
Proof.
  induction x as [|a x IH]; [reflexivity|].
  by rewrite string_app_cons, IH.
Qed.

Lemma string_app_assoc (x y z : string) : x +:+ (y +:+ z) = (x +:+ y) +:+ z.
Proof.
  induction x as [|a x IH]; [reflexivity|].
  by rewrite !string_app_cons, IH.
Qed.

Lemma join_cons (x : string) (l : list string) : join (x :: l) = x +:+ join l.
Proof. reflexivity. Qed.

(* The loop, started from arbitrary accumulators. *)
Lemma onresult_loop_acc results (fin itm : string) :
  fold_left
    (fun acc r =>
       if isFinal r
       then (acc.1 +:+ transcript (alternative0 r), acc.2)
       else (acc.1, acc.2 +:+ transcript (alternative0 r)))
    results (fin, itm)
  = (fin +:+ join (map transcript_of (finalized results)),
     itm +:+ join (map transcript_of (interim results))).
Proof.
  revert fin itm. induction results as [|r results IH]; intros fin itm; simpl.
  - by rewrite !string_app_nil_r.
  - unfold finalized, interim in *. simpl.
    destruct (isFinal r); simpl; rewrite IH; unfold transcript_of;
      by rewrite string_app_assoc.
Qed.

Lemma liveText_partition results :
  liveText results
  = join (map transcript_of (finalized results))
    +:+ join (map transcript_of (interim results)).
Proof. unfold liveText, onresult_loop. by rewrite onresult_loop_acc. Qed.

Lemma all_interim_finalized results :
  forallb (fun r' => negb (isFinal r')) results = true ->
  finalized results = [] /\ interim results = results.
Proof.
  unfold finalized, interim.
  induction results as [|r results IH]; simpl; [done|].
  destruct (isFinal r); simpl; [done|]. intros H.
  destruct (IH H) as [-> ->]. done.
Qed.

Lemma finals_first_in_order results :
  finals_first results = true ->
  join (map transcript_of (finalized results))
    +:+ join (map transcript_of (interim results))
  = in_order_text results.
Proof.
  unfold in_order_text, finalized, interim.
  induction results as [|r results IH]; simpl; [done|].
  destruct (isFinal r) eqn:Hr; simpl; intros H.
  - by rewrite <- string_app_assoc, IH.
  - destruct (all_interim_finalized _ H) as [Hf Hi].
    unfold finalized, interim in Hf, Hi. by rewrite Hf, Hi.
Qed.

End Recognition.

(* Unfolds an event down to the primitive updates and calls. *)
Ltac unfold_handlers :=
  unfold step, blocked, render, dispatch, commit, handler,
    handleSendMessage, handleSendMessage_then, handleSendMessage_catch,
    handleClearChat, handleToggleRecording, startRecording, stopRecording,
    onresult, onerror, onend, onChange, get_prop, speechSynthesis_cancel,
    speak, preventDefault, issued, settled, setMessages, setInput, setIsLoading, setText,
    setIsRecording, update, emit, call, when, seq, skip, throw,
    speechEffect, saveEffect, unchanged in *.

(* Splits on the scrutinee of the first conditional left in the goal. *)
Ltac case_step :=
  match goal with
  | |- context [if ?b then _ else _] => destruct b eqn:?
  | |- context [match ?x with _ => _ end] => destruct x eqn:?
  end.

Ltac cases :=
  simpl in *;
  repeat (case_step; simpl in *;
          rewrite ?orb_true_r, ?orb_false_r, ?andb_true_r, ?andb_false_r in *;
          try discriminate; try (exfalso; congruence)).

Section Properties.

Context {PD : Type} (env : Env PD).

Implicit Types (s : State) (ev : Event) (saved : option (list ChatMessage)).

(* ----- persistence ---------------------------------------------------- *)

Lemma not_accepted (c : Consent) : c <> accepted -> is_accepted c = false.
Proof. by destruct c. Qed.

Lemma dispatch_no_persistence ev s :
  storageConsent env <> accepted -> no_persistence (trace (dispatch env ev s)).
Proof.
  intros Hc%not_accepted. unfold no_persistence.
  destruct ev; unfold_handlers; rewrite ?Hc; cases;
    repeat constructor.
Qed.

Lemma step_cases ev s :
  step env ev s = unchanged s \/ step env ev s = dispatch env ev s.
Proof. unfold step. destruct (blocked (render s) ev); auto. Qed.

Lemma step_no_persistence ev s :
  storageConsent env <> accepted -> no_persistence (trace (step env ev s)).
Proof.
  intros Hc. destruct (step_cases ev s) as [-> | ->].
  - constructor.
  - by apply dispatch_no_persistence.
Qed.

Lemma mount_no_persistence saved :
  storageConsent env <> accepted -> no_persistence (trace (mount env saved)).
Proof.
  intros Hc%not_accepted. unfold no_persistence, mount, saveEffect.
  rewrite Hc. simpl. destruct (hasSpeechRecognition env); repeat constructor.
Qed.

Lemma run_no_persistence (deliver : Event -> State -> Outcome PD) evs s :
  (forall ev s', no_persistence (trace (deliver ev s'))) ->
  no_persistence (run deliver evs s).2.
Proof.
  intros Hd. revert s. induction evs as [|ev evs IH]; intros s; simpl.
  - constructor.
  - apply Forall_app. split; [apply Hd | apply IH].
Qed.

Lemma session_no_persistence (deliver : Event -> State -> Outcome PD) saved evs :
  storageConsent env <> accepted ->
  (forall ev s, no_persistence (trace (deliver ev s))) ->
  no_persistence (session env deliver saved evs).2.
Proof.
  intros Hc Hd. unfold session. simpl. apply Forall_app. split.
  - by apply mount_no_persistence.
  - by apply run_no_persistence.
Qed.

(** C1: when the consent flag is not [accepted] (it is [declined] or
    [pending]), a session never calls loadChatHistory, saveChatHistory or
    clearChatHistory, whatever was saved before and whatever events
    arrive, whether every handler is invoked directly or the events pass
    through the rendered controls. *)
Theorem persistence_gating saved evs :
  storageConsent env <> accepted ->
  no_persistence (session env (dispatch env) saved evs).2 /\
  no_persistence (session env (step env) saved evs).2.
Proof.
  intros Hc. split; apply session_no_persistence; try done; intros ev s.
  - by apply dispatch_no_persistence.
  - by apply step_no_persistence.
Qed.

(* ----- the in-flight request ------------------------------------------ *)

Lemma dispatch_busy_counts ev s :
  busy_counts s -> busy_counts (next (dispatch env ev s)).
Proof.
  unfold busy_counts. destruct s as [ms inp ld st rec n]. simpl. intros ->.
  destruct ev; unfold_handlers; cases; reflexivity.
Qed.

Lemma reachable_busy_counts saved s : reachable env saved s -> busy_counts s.
Proof.
  induction 1 as [|s ev _ IH]; [reflexivity|]. by apply dispatch_busy_counts.
Qed.

Lemma reachable_step saved s ev :
  reachable env saved s -> reachable env saved (next (step env ev s)).
Proof.
  intros H. destruct (step_cases ev s) as [-> | ->]; [done|].
  by constructor.
Qed.

Lemma reachable_run_step saved evs s :
  reachable env saved s -> reachable env saved (run (step env) evs s).1.
Proof.
  revert s. induction evs as [|ev evs IH]; intros s Hr; simpl; [done|].
  by apply IH, reachable_step.
Qed.

Lemma blank_not_truthy (x : string) : x = "" -> truthy x = false.
Proof. by intros ->. Qed.

Lemma submit_rejected s e :
  isLoading s = true \/ trim (input s) = "" ->
  dispatch env (Submit e) s
  = {| next := s; trace := preventDefault e; completion := Normal |}.
Proof.
  intros H.
  assert (negb (truthy (trim (input s))) || isLoading s = true) as Hg.
  { destruct H as [-> | ->%blank_not_truthy]; [apply orb_true_r | done]. }
  unfold dispatch, handler, handleSendMessage. rewrite Hg.
  unfold commit, seq, call, skip. simpl.
  rewrite bool_decide_true by done. by rewrite app_nil_r.
Qed.

(** C2: a submit while a response is awaited, or with pending input that
    is empty after trimming, changes no part of the state (transcript,
    pending input, recording state, busy flag, outstanding requests) and
    makes no call except the event's preventDefault, so no generation
    call; through the rendered form it is not even delivered.  Hence in
    every reachable state at most one generation request is in flight. *)
Theorem submit_guard s e :
  (isLoading s = true \/ trim (input s) = "" ->
     dispatch env (Submit e) s
     = {| next := s; trace := preventDefault e; completion := Normal |}
     /\ no_generation (trace (dispatch env (Submit e) s))
     /\ step env (Submit e) s = unchanged s)
  /\ (forall saved, reachable env saved s -> inFlight s <= 1).
Proof.
  split.
  - intros H. rewrite (submit_rejected s e H). simpl. repeat split.
    + destruct e; repeat constructor.
    + unfold step, blocked, render. simpl.
      destruct H as [-> | ->%blank_not_truthy]; [done|].
      by rewrite orb_true_r.
  - intros saved Hr%reachable_busy_counts. unfold busy_counts in Hr.
    destruct (isLoading s); lia.
Qed.

(* ----- the transcript -------------------------------------------------- *)

Lemma mount_messages saved :
  messages (next (mount env saved)) = [initialMessage]
  \/ (storageConsent env = accepted
      /\ saved = Some (messages (next (mount env saved)))
      /\ 1 <= length (messages (next (mount env saved)))).
Proof.
  unfold mount, initialMessages. simpl.
  destruct (storageConsent env); simpl; auto.
  destruct saved as [[|m ms]|]; simpl; auto.
  right. repeat split. lia.
Qed.

Lemma dispatch_messages ev s :
  messages (next (dispatch env ev s)) = messages s
  \/ (exists m, messages (next (dispatch env ev s)) = messages s ++ [m])
  \/ (ev = ClickClear /\ messages (next (dispatch env ev s)) = [initialMessage]).
Proof.
  destruct s as [ms inp ld st rec n].
  destruct ev; unfold_handlers; cases; eauto.
Qed.

Lemma clear_messages s :
  messages (next (dispatch env ClickClear s)) = [initialMessage].
Proof. destruct s as [ms inp ld st rec n]. unfold_handlers; cases; eauto. Qed.

Lemma reachable_nonempty saved s :
  reachable env saved s -> 1 <= length (messages s).
Proof.
  induction 1 as [|s ev _ IH].
  - destruct (mount_messages saved) as [-> | (_ & _ & H)]; [simpl; lia | done].
  - destruct (dispatch_messages ev s) as [-> | [[m ->] | [_ ->]]];
      [done | rewrite length_app; simpl; lia | simpl; lia].
Qed.

(** C9: in every reachable state the transcript has at least one message:
    it starts as the single greeting or as a non-empty restored history,
    every event leaves it as it was, appends one message to it, or (clear
    session) resets it, and clear session resets it to exactly the single
    greeting. *)
Theorem transcript_never_empty saved s :
  reachable env saved s ->
  1 <= length (messages s)
  /\ (messages (next (mount env saved)) = [initialMessage]
      \/ (storageConsent env = accepted
          /\ saved = Some (messages (next (mount env saved)))
          /\ 1 <= length (messages (next (mount env saved)))))
  /\ (forall ev,
        messages (next (dispatch env ev s)) = messages s
        \/ (exists m, messages (next (dispatch env ev s)) = messages s ++ [m])
        \/ (ev = ClickClear
            /\ messages (next (dispatch env ev s)) = [initialMessage]))
  /\ messages (next (dispatch env ClickClear s)) = [initialMessage].
Proof.
  intros Hr. split; [by eapply reachable_nonempty|].
  split; [apply mount_messages|].
  split; [intros ev; apply dispatch_messages | apply clear_messages].
Qed.

(* ----- submit ----------------------------------------------------------- *)

Lemma not_blank_truthy (x : string) : x <> "" -> truthy x = true.
Proof. by destruct x. Qed.

(** C3 (amended): for every submit in the idle state whose pending input
    is not blank after trimming, in a browser with speech synthesis, the
    user message appended to the transcript has as content the pending
    input exactly as it stands, untrimmed, and the generation call carries
    that same transcript. *)
Theorem submit_appends_pending_input s e :
  hasSpeechSynthesis env = true ->
  isLoading s = false ->
  trim (input s) <> "" ->
  messages (next (dispatch env (Submit e) s))
  = messages s ++ [{| role := user; content := input s |}]
  /\ In (GetChatResponse (messages s ++ [{| role := user; content := input s |}])
                         (prescriptionData env))
        (trace (dispatch env (Submit e) s)).
Proof.
  intros Hsyn Hld Hin%not_blank_truthy.
  destruct s as [ms inp ld st rec n]. simpl in *. subst ld.
  unfold_handlers. simpl. rewrite Hsyn, Hin. simpl.
  split; cases; auto;
    rewrite ?in_app_iff; simpl; auto 10.
Qed.

(* ----- recording --------------------------------------------------------- *)

(** C4 (amended): in a browser with speech recognition, toggling recording
    while capture is inactive empties the live recording text, starts
    speech capture and marks recording active, and leaves the pending
    input as it was; toggling while capture is active stops capture and
    changes neither text. *)
Theorem toggle_recording s :
  hasSpeechRecognition env = true ->
  (isRecording s = false ->
     dispatch env ClickMic s
     = {| next := with_isRecording true (with_speechText "" s);
          trace := [RecognitionStart]; completion := Normal |}
     /\ input (next (dispatch env ClickMic s)) = input s)
  /\ (isRecording s = true ->
     dispatch env ClickMic s
     = {| next := with_isRecording false s;
          trace := [RecognitionStop]; completion := Normal |}).
Proof.
  intros Hrec. destruct s as [ms inp ld st rec n]. simpl.
  split; intros ->; unfold_handlers; simpl; rewrite Hrec; simpl.
  - split; cases; reflexivity.
  - rewrite bool_decide_true by done. reflexivity.
Qed.

(* ----- editing ----------------------------------------------------------- *)

Lemma changeEvent_targe (t : string) : changeEvent t !! "targe" = None.
Proof. reflexivity. Qed.

(** C5: the onChange handler of the text field, given the change event for
    a field that holds [t], throws a TypeError (the event has no property
    [targe]) and leaves the pending input, like the rest of the state, as
    it was. *)
Theorem onChange_throws s t :
  dispatch env (Change (changeEvent t)) s
  = {| next := s; trace := [];
       completion :=
         Throw (TypeError "Cannot read properties of undefined (reading 'value')") |}.
Proof.
  unfold dispatch, handler, onChange, get_prop.
  rewrite changeEvent_targe. simpl. unfold commit, throw. simpl.
  by rewrite bool_decide_true.
Qed.

(* ----- playback ---------------------------------------------------------- *)

(** C6: in a browser without speech synthesis, [speak] only warns, but a
    submit that passes the guard throws a TypeError at the playback cancel
    before anything is appended or requested, and clear session throws a
    TypeError at its playback cancel. *)
Theorem cancel_without_synthesis s e :
  hasSpeechSynthesis env = false ->
  (forall text,
     speak env text = [ConsoleWarn "Browser does not support SpeechSynthesis."])
  /\ (isLoading s = false -> trim (input s) <> "" ->
      completion (dispatch env (Submit e) s)
      = Throw (TypeError "Cannot read properties of undefined (reading 'cancel')")
      /\ messages (next (dispatch env (Submit e) s)) = messages s
      /\ no_generation (trace (dispatch env (Submit e) s)))
  /\ completion (dispatch env ClickClear s)
     = Throw (TypeError "Cannot read properties of undefined (reading 'cancel')").
Proof.
  intros Hsyn. split; [|split].
  - intros text. unfold speak. by rewrite Hsyn.
  - intros Hld Hin%not_blank_truthy.
    destruct s as [ms inp ld st rec n]. simpl in *. subst ld.
    unfold no_generation. unfold_handlers. simpl. rewrite Hsyn, Hin.
    repeat split; cases; repeat constructor.
  - destruct s as [ms inp ld st rec n].
    unfold_handlers. simpl. rewrite Hsyn. cases; reflexivity.
Qed.

(* ----- while a response is awaited --------------------------------------- *)


(* ----- failure of the generation call ------------------------------------ *)

(** C8: when the outstanding generation call fails, whatever the error,
    the transcript gains exactly one message, the fixed apology, whose
    role is model; [speak] is called once, with the apology text; the
    busy flag is cleared and the request is no longer outstanding; the
    error itself goes to the console only, so the transcript is the same
    for every error. *)
Theorem generation_failure s error :
  0 < inFlight s ->
  messages (next (dispatch env (ResponseRejected error) s))
  = messages s ++ [errorMessage]
  /\ role errorMessage = model
  /\ trace (dispatch env (ResponseRejected error) s)
     = [ConsoleError "Chat error:" error]
       ++ speak env (content errorMessage)
       ++ saveEffect env (messages s ++ [errorMessage])
  /\ isLoading (next (dispatch env (ResponseRejected error) s)) = false
  /\ inFlight (next (dispatch env (ResponseRejected error) s)) = Nat.pred (inFlight s)
  /\ completion (dispatch env (ResponseRejected error) s) = Normal
  /\ (forall error',
       messages (next (dispatch env (ResponseRejected error') s))
       = messages (next (dispatch env (ResponseRejected error) s))).
Proof.
  intros Hn. destruct s as [ms inp ld st rec n]. simpl in *.
  destruct n as [|n]; [lia|].
  unfold dispatch, handler. simpl.
  unfold handleSendMessage_catch, commit, seq, settled, update, emit, call,
    setMessages, setIsLoading. simpl.
  rewrite bool_decide_true by done. simpl.
  repeat split.
Qed.

(* ----- speech recognition results ---------------------------------------- *)

Lemma onresult_speechText s (results : list SpeechRecognitionResult) :
  hasSpeechRecognition env = true ->
  speechText (next (dispatch env (RecognitionResult results) s)) = liveText results.
Proof.
  intros Hrec. destruct s as [ms inp ld st rec n].
  unfold_handlers. rewrite Hrec. cases; reflexivity.
Qed.

(** C10: on every recognition update whose results list has the shape the
    engine reports (finalized entries first, interim entries after them),
    the live text that the hook emits is the entries' transcripts
    concatenated in the order the segments were reported; the finalized
    entries' text comes first in it and the interim entries' text is its
    provisional suffix. *)
Theorem liveText_in_reported_order s (results : list SpeechRecognitionResult) :
  hasSpeechRecognition env = true ->
  finals_first results = true ->
  speechText (next (dispatch env (RecognitionResult results) s))
  = in_order_text results
  /\ speechText (next (dispatch env (RecognitionResult results) s))
     = join (map transcript_of (finalized results))
       +:+ join (map transcript_of (interim results)).
Proof.
  intros Hrec Hshape. rewrite (onresult_speechText s results Hrec).
  split; [|apply liveText_partition].
  rewrite liveText_partition. by apply finals_first_in_order.
Qed.

End Properties.

(* --------------------------------------------------------------------- *)
(* The properties at sample sessions                                      *)
(* --------------------------------------------------------------------- *)

(** C1 at a sample session: consent declined, a saved history present,
    then dictation, a submit, a failed response and a clear. *)
Lemma persistence_gating_witness :
  no_persistence
    (session (browser declined) (dispatch (browser declined)) (Some [errorMessage])
       [RecognitionResult [segment true "hi"]; Submit None;
        ResponseRejected "offline"; ClickClear]).2
  /\ no_persistence
    (session (browser declined) (step (browser declined)) (Some [errorMessage])
       [RecognitionResult [segment true "hi"]; Submit None;
        ResponseRejected "offline"; ClickClear]).2.
Proof.
  apply (persistence_gating (browser declined)). simpl. discriminate.
Defined.

Lemma awaiting_reachable (env : Env unit) (t : string) :
  reachable env None (awaiting env t).
Proof.
  unfold awaiting, dictated, fresh.
  apply reachable_step, reachable_run_step. constructor.
Qed.

(** C2 at a sample session: a second submit while the first one is
    awaited. *)
Lemma submit_guard_witness :
  dispatch (browser accepted) (Submit None) (awaiting (browser accepted) "hi")
  = unchanged (awaiting (browser accepted) "hi")
  /\ inFlight (awaiting (browser accepted) "hi") <= 1.
Proof.
  destruct (submit_guard (browser accepted) (awaiting (browser accepted) "hi") None)
    as [Hrej Hone].
  split.
  - apply Hrej. left. reflexivity.
  - apply (Hone None). apply awaiting_reachable.
Defined.

(** C9 at a sample session: while a response is awaited, and after a
    clear. *)
Lemma transcript_never_empty_witness :
  1 <= length (messages (awaiting (browser accepted) "hi"))
  /\ messages (next (dispatch (browser accepted) ClickClear
                      (awaiting (browser accepted) "hi"))) = [initialMessage].
Proof.
  destruct (transcript_never_empty (browser accepted) None
              (awaiting (browser accepted) "hi")
              (awaiting_reachable _ _)) as (Hlen & _ & _ & Hclear).
  split; [exact Hlen | exact Hclear].
Defined.

(** C3 as stated fails: dictation that starts and ends with a space is
    accepted by the guard and appended as it is, not trimmed. *)
Lemma submit_trimmed_counterexample :
  isLoading (dictated (browser accepted) " hi ") = false
  /\ trim (input (dictated (browser accepted) " hi ")) = "hi"
  /\ messages (next (dispatch (browser accepted) (Submit None)
                      (dictated (browser accepted) " hi ")))
     = [initialMessage; {| role := user; content := " hi " |}]
  /\ content {| role := user; content := " hi " |}
     <> trim (input (dictated (browser accepted) " hi ")).
Proof. repeat split. discriminate. Qed.

(** C3 (amended) at that session. *)
Lemma submit_appends_pending_input_witness :
  messages (next (dispatch (browser accepted) (Submit None)
                   (dictated (browser accepted) " hi ")))
  = messages (dictated (browser accepted) " hi ")
    ++ [{| role := user; content := " hi " |}].
Proof.
  apply (submit_appends_pending_input (browser accepted)
           (dictated (browser accepted) " hi ") None);
    [reflexivity | reflexivity | simpl; discriminate].
Defined.

(** C4 as stated fails: starting to record empties the live text and
    starts capture, but leaves what stands in the text field. *)
Lemma toggle_clears_input_counterexample :
  isRecording (dictated (browser accepted) "abc") = false
  /\ speechText (next (dispatch (browser accepted) ClickMic
                        (dictated (browser accepted) "abc"))) = ""
  /\ In RecognitionStart
        (trace (dispatch (browser accepted) ClickMic
                  (dictated (browser accepted) "abc")))
  /\ input (next (dispatch (browser accepted) ClickMic
                    (dictated (browser accepted) "abc"))) = "abc"
  /\ input (next (dispatch (browser accepted) ClickMic
                    (dictated (browser accepted) "abc"))) <> "".
Proof. repeat split; [left; reflexivity | discriminate]. Qed.

(** C4 (amended) at that session: recording switched on, then off. *)
Lemma toggle_recording_witness :
  input (next (dispatch (browser accepted) ClickMic
                 (dictated (browser accepted) "abc")))
  = input (dictated (browser accepted) "abc")
  /\ dispatch (browser accepted) ClickMic
       (next (dispatch (browser accepted) ClickMic
                (dictated (browser accepted) "abc")))
     = {| next := with_speechText "" (dictated (browser accepted) "abc");
          trace := [RecognitionStop]; completion := Normal |}.
Proof.
  split.
  - apply (toggle_recording (browser accepted)
             (dictated (browser accepted) "abc")); reflexivity.
  - apply (toggle_recording (browser accepted)
             (next (dispatch (browser accepted) ClickMic
                      (dictated (browser accepted) "abc")))); reflexivity.
Defined.

(** C6 at a sample session: without speech synthesis a dictated question
    cannot be submitted, and clear session throws. *)
Lemma cancel_without_synthesis_witness :
  completion (dispatch (mute_browser accepted) (Submit None)
                (dictated (mute_browser accepted) "hi"))
  = Throw (TypeError "Cannot read properties of undefined (reading 'cancel')")
  /\ messages (next (dispatch (mute_browser accepted) (Submit None)
                      (dictated (mute_browser accepted) "hi")))
     = [initialMessage]
  /\ completion (dispatch (mute_browser accepted) ClickClear
                   (dictated (mute_browser accepted) "hi"))
     = Throw (TypeError "Cannot read properties of undefined (reading 'cancel')").
Proof.
  destruct (cancel_without_synthesis (mute_browser accepted)
              (dictated (mute_browser accepted) "hi") None eq_refl)
    as (_ & Hsubmit & Hclear).
  assert (trim (input (dictated (mute_browser accepted) "hi")) <> "") as Hin
    by (simpl; discriminate).
  destruct (Hsubmit eq_refl Hin) as (Hthrow & Hsame & _).
  split; [exact Hthrow | split; [exact Hsame | exact Hclear]].
Defined.



(** C8 at a sample session: the awaited response fails with a provider
    error. *)
Lemma generation_failure_witness :
  messages (next (dispatch (browser accepted) (ResponseRejected "503 overloaded")
                   (awaiting (browser accepted) "hi")))
  = [initialMessage; {| role := user; content := "hi" |}; errorMessage]
  /\ isLoading (next (dispatch (browser accepted) (ResponseRejected "503 overloaded")
                       (awaiting (browser accepted) "hi"))) = false.
Proof.
  destruct (generation_failure (browser accepted) (awaiting (browser accepted) "hi")
              "503 overloaded") as (Hmsgs & _ & _ & Hidle & _).
  - simpl. lia.
  - split; [exact Hmsgs | exact Hidle].
Defined.

(** C10 at a results list with one trailing interim entry. *)
Lemma liveText_in_reported_order_witness :
  speechText (next (dispatch (browser accepted)
                      (RecognitionResult [segment true "headache "; segment false "rel"])
                      (fresh (browser accepted))))
  = "headache rel".
Proof.
  destruct (liveText_in_reported_order (browser accepted)
              (fresh (browser accepted))
              [segment true "headache "; segment false "rel"] eq_refl eq_refl)
    as [Horder _].
  rewrite Horder. reflexivity.
Defined.

(* C5 at a fresh session: typing into the enabled text field. *)
Example onChange_fresh :
  completion (step (browser accepted) (Change (changeEvent "a")) (fresh (browser accepted)))
  = Throw (TypeError "Cannot read properties of undefined (reading 'value')")
  /\ input (next (step (browser accepted) (Change (changeEvent "a"))
                    (fresh (browser accepted)))) = "".
Proof. split; reflexivity. Qed.

(* The dictation scenario: recording on, interim "head", finalized
   "headache relief", recording off. *)
Example dictation_scenario :
  map input
    [ next (step (browser accepted) ClickMic (fresh (browser accepted)));
      (run (step (browser accepted))
         [ClickMic; RecognitionResult [segment false "head"]]
         (fresh (browser accepted))).1;
      (run (step (browser accepted))
         [ClickMic; RecognitionResult [segment false "head"];
          RecognitionResult [segment true "headache relief"]]
         (fresh (browser accepted))).1;
      (run (step (browser accepted))
         [ClickMic; RecognitionResult [segment false "head"];
          RecognitionResult [segment true "headache relief"]; ClickMic]
         (fresh (browser accepted))).1 ]
  = [""; "head"; "headache relief"; "headache relief"].
Proof. reflexivity. Qed.

(* The headache scenario: a dictated question is submitted and answered. *)
Example answered_scenario :
  session (browser accepted) (step (browser accepted)) None
    [ClickMic; RecognitionResult [segment true "What helps a headache?"];
     Submit None; ResponseFulfilled "Rest and water."]
  = ({| messages := [initialMessage;
                     {| role := user; content := "What helps a headache?" |};
                     {| role := model; content := "Rest and water." |}];
        input := ""; isLoading := false; speechText := "";
        isRecording := false; inFlight := 0 |},
     [LoadChatHistory; RecognitionStart; RecognitionStop; SynthCancel;
      GetChatResponse
        [initialMessage; {| role := user; content := "What helps a headache?" |}]
        None;
      SaveChatHistory
        [initialMessage; {| role := user; content := "What helps a headache?" |}];
      SynthCancel;
      SynthSpeak {| utterance_text := "Rest and water."; lang := "en-US"; rate := 1 |};
      SaveChatHistory
        [initialMessage;
         {| role := user; content := "What helps a headache?" |};
         {| role := model; content := "Rest and water." |}]]).
Proof. reflexivity. Qed.

(* --------------------------------------------------------------------- *)
(* Further properties of the handlers                                     *)
(* --------------------------------------------------------------------- *)

Section Outcomes.

Context {PD : Type} (env : Env PD).

Implicit Types (s : State) (ev : Event) (saved : option (list ChatMessage)).

(* ----- the guard of handleSendMessage ----------------------------------- *)

Lemma trimEnd_empty (x : string) : trimEnd x = "" <-> all_whitespace x = true.
Proof.
  induction x as [|a x IH]; simpl; [done|].
  destruct (trimEnd x) eqn:Hx.
  - destruct (is_whitespace a); simpl; [by rewrite <- IH | split; discriminate].
  - split; [discriminate|]. intros [_ H]%andb_true_iff.
    apply IH in H. discriminate.
Qed.

Lemma trimStart_whitespace (x : string) :
  all_whitespace (trimStart x) = all_whitespace x.
Proof.
  induction x as [|a x IH]; simpl; [done|].
  destruct (is_whitespace a) eqn:Ha; simpl; [done | by rewrite Ha].
Qed.

Lemma trim_empty (x : string) : trim x = "" <-> all_whitespace x = true.
Proof. unfold trim. by rewrite trimEnd_empty, trimStart_whitespace. Qed.

Lemma truthy_trim (x : string) : truthy (trim x) = negb (all_whitespace x).
Proof.
  destruct (all_whitespace x) eqn:Hx.
  - apply trim_empty in Hx. by rewrite Hx.
  - destruct (trim x) eqn:Ht; [|done].
    apply trim_empty in Ht. congruence.
Qed.

(* The outcome of a submit that passes the guard. *)
Lemma submit_passes s e :
  hasSpeechSynthesis env = true ->
  isLoading s = false ->
  all_whitespace (input s) = false ->
  dispatch env (Submit e) s
  = {| next := {| messages := messages s ++ [{| role := user; content := input s |}];
                  input := ""; isLoading := true; speechText := "";
                  isRecording := isRecording s && negb (hasSpeechRecognition env);
                  inFlight := S (inFlight s) |};
       trace := preventDefault e
                ++ (if hasSpeechRecognition env && isRecording s
                    then [RecognitionStop] else [])
                ++ [SynthCancel;
                    GetChatResponse
                      (messages s ++ [{| role := user; content := input s |}])
                      (prescriptionData env)]
                ++ saveEffect env
                     (messages s ++ [{| role := user; content := input s |}]);
       completion := Normal |}.
Proof.
  intros Hsyn Hld Hws. destruct s as [ms inp ld st rec n]. simpl in *. subst ld.
  unfold dispatch, handler, handleSendMessage. simpl.
  rewrite truthy_trim, Hws. simpl.
  unfold speechSynthesis_cancel, stopRecording. rewrite Hsyn.
  destruct rec, (hasSpeechRecognition env), e; simpl;
    unfold commit; simpl; case_bool_decide; reflexivity.
Qed.

(** X2: a submit that passes the guard (idle, text field not blank, speech
    synthesis present) appends the user message, empties the text field
    and the live recording text, sets the busy flag, and stops a running
    recording; it calls speechSynthesis.cancel() and then getChatResponse,
    once, with the transcript that ends in the new user message, and
    nothing is spoken. *)
Theorem submit_outcome s e :
  hasSpeechSynthesis env = true ->
  isLoading s = false ->
  all_whitespace (input s) = false ->
  next (dispatch env (Submit e) s)
  = {| messages := messages s ++ [{| role := user; content := input s |}];
       input := ""; isLoading := true; speechText := "";
       isRecording := isRecording s && negb (hasSpeechRecognition env);
       inFlight := S (inFlight s) |}
  /\ List.filter (fun x => is_generation x || is_synthesis_call x)
       (trace (dispatch env (Submit e) s))
     = [SynthCancel;
        GetChatResponse (messages s ++ [{| role := user; content := input s |}])
                        (prescriptionData env)]
  /\ (hasSpeechRecognition env = true -> isRecording s = true ->
      In RecognitionStop (trace (dispatch env (Submit e) s)))
  /\ completion (dispatch env (Submit e) s) = Normal.
Proof.
  intros Hsyn Hld Hws. rewrite (submit_passes s e Hsyn Hld Hws). simpl.
  split; [done|]. split; [|split; [|done]].
  - unfold saveEffect.
    destruct e, (hasSpeechRecognition env && isRecording s),
      (is_accepted (storageConsent env)
       && (1 <? length (messages s ++ [{| role := user; content := input s |}]))%nat);
      reflexivity.
  - intros -> ->. simpl. destruct e; simpl; auto.
Qed.

(** X11: the Send button is disabled exactly when a response is awaited or
    the text field holds nothing but whitespace, and that is exactly when
    handleSendMessage returns at its guard: a submit then changes nothing,
    and otherwise (in a browser with speech synthesis) it issues the
    generation call. *)
Theorem send_button_matches_guard s e :
  send_disabled (render s) = isLoading s || all_whitespace (input s)
  /\ (send_disabled (render s) = true ->
      next (dispatch env (Submit e) s) = s
      /\ trace (dispatch env (Submit e) s) = preventDefault e)
  /\ (send_disabled (render s) = false ->
      hasSpeechSynthesis env = true ->
      In (GetChatResponse (messages s ++ [{| role := user; content := input s |}])
                          (prescriptionData env))
         (trace (dispatch env (Submit e) s))).
Proof.
  assert (send_disabled (render s) = isLoading s || all_whitespace (input s)) as Hb.
  { unfold render. simpl. by rewrite truthy_trim, negb_involutive. }
  rewrite Hb. split; [done|]. split.
  - intros H. rewrite submit_rejected; [done|].
    apply orb_true_iff in H as [H|H]; [by left | right; by apply trim_empty].
  - intros [Hld Hws]%orb_false_iff Hsyn.
    rewrite (submit_passes s e Hsyn Hld Hws). simpl.
    rewrite !in_app_iff. simpl. auto 10.
Qed.

(* ----- the response ----------------------------------------------------- *)

Lemma response_fulfilled s response :
  0 < inFlight s ->
  dispatch env (ResponseFulfilled response) s
  = {| next := {| messages := messages s ++ [{| role := model; content := response |}];
                  input := input s; isLoading := false;
                  speechText := speechText s; isRecording := isRecording s;
                  inFlight := Nat.pred (inFlight s) |};
       trace := speak env response
                ++ saveEffect env
                     (messages s ++ [{| role := model; content := response |}]);
       completion := Normal |}.
Proof.
  intros Hn. destruct s as [ms inp ld st rec n]. simpl in *.
  destruct n as [|n]; [lia|].
  unfold dispatch, handler. simpl.
  unfold handleSendMessage_then, commit, seq, settled, update, call,
    setMessages, setIsLoading. simpl.
  by rewrite bool_decide_true.
Qed.

(** X1: when the outstanding generation call succeeds with [response], the
    transcript gains exactly one message, of role model and with the
    response as content; speak is called once, with the response; the
    busy flag is cleared and the request is no longer outstanding; the
    text field and the recording state are not touched. *)
Theorem generation_success s response :
  0 < inFlight s ->
  next (dispatch env (ResponseFulfilled response) s)
  = {| messages := messages s ++ [{| role := model; content := response |}];
       input := input s; isLoading := false;
       speechText := speechText s; isRecording := isRecording s;
       inFlight := Nat.pred (inFlight s) |}
  /\ trace (dispatch env (ResponseFulfilled response) s)
     = speak env response
       ++ saveEffect env (messages s ++ [{| role := model; content := response |}])
  /\ completion (dispatch env (ResponseFulfilled response) s) = Normal.
Proof.
  intros Hn. destruct s as [ms inp ld st rec n]. simpl in *.
  destruct n as [|n]; [lia|].
  unfold dispatch, handler. simpl.
  unfold handleSendMessage_then, commit, seq, settled, update, call,
    setMessages, setIsLoading. simpl.
  rewrite bool_decide_true by done. repeat split.
Qed.

(* Clear session leaves the busy flag and the outstanding request. *)
Lemma clear_keeps_request s :
  inFlight (next (dispatch env ClickClear s)) = inFlight s.
Proof. destruct s as [ms inp ld st rec n]. unfold_handlers; cases; reflexivity. Qed.

(** X10: clear session does not cancel the outstanding generation call:
    when its response arrives after the clear, it is appended to the reset
    transcript, which then reads greeting, response (or greeting, apology
    when the call fails), and with consent accepted that transcript is
    saved over the store that the clear erased. *)
Theorem response_after_clear s response error :
  0 < inFlight s ->
  messages (next (dispatch env (ResponseFulfilled response)
                    (next (dispatch env ClickClear s))))
  = [initialMessage; {| role := model; content := response |}]
  /\ messages (next (dispatch env (ResponseRejected error)
                      (next (dispatch env ClickClear s))))
     = [initialMessage; errorMessage]
  /\ (storageConsent env = accepted ->
      In ClearChatHistory (trace (dispatch env ClickClear s))
      /\ In (SaveChatHistory [initialMessage; {| role := model; content := response |}])
            (trace (dispatch env (ResponseFulfilled response)
                      (next (dispatch env ClickClear s))))).
Proof.
  intros Hn.
  assert (0 < inFlight (next (dispatch env ClickClear s))) as Hn'
    by (by rewrite clear_keeps_request).
  rewrite (response_fulfilled _ response Hn'). cbn [next messages trace].
  rewrite clear_messages. split; [done|]. split.
  - clear Hn'. destruct s as [ms inp ld st rec n]. simpl in *.
    destruct n as [|n]; [lia|].
    unfold_handlers; cases; reflexivity.
  - intros Hacc. split.
    + clear Hn'. destruct s as [ms inp ld st rec n].
      unfold_handlers. rewrite Hacc. cases; auto.
    + unfold saveEffect. rewrite Hacc. simpl.
      rewrite in_app_iff. right. by left.
Qed.

(* ----- clear session ---------------------------------------------------- *)

(** X9: in a browser with speech synthesis, clear session resets the
    transcript to the single greeting and stops a running recording, and
    leaves the text field, the live recording text, the busy flag and the
    outstanding request as they were; it erases the store exactly when
    consent is accepted, cancels playback, and never saves. *)
Theorem clear_outcome s :
  hasSpeechSynthesis env = true ->
  dispatch env ClickClear s
  = {| next := {| messages := [initialMessage];
                  input := input s; isLoading := isLoading s;
                  speechText := speechText s;
                  isRecording := isRecording s && negb (hasSpeechRecognition env);
                  inFlight := inFlight s |};
       trace := (if is_accepted (storageConsent env) then [ClearChatHistory] else [])
                ++ [SynthCancel]
                ++ (if hasSpeechRecognition env && isRecording s
                    then [RecognitionStop] else []);
       completion := Normal |}.
Proof.
  intros Hsyn. destruct s as [ms inp ld st rec n].
  unfold dispatch, handler, handleClearChat, speechSynthesis_cancel, stopRecording.
  rewrite Hsyn. unfold commit, saveEffect.
  destruct (is_accepted (storageConsent env)), rec, (hasSpeechRecognition env);
    simpl; rewrite bool_decide_true by done; reflexivity.
Qed.

(** X12: in a browser without speech synthesis the two handlers that
    throw at the playback cancel have already done what precedes it.
    Clear session has reset the transcript and, with consent accepted,
    erased the store, but a running recording is not stopped.  A submit
    that passes the guard has stopped a running recording, but the text
    field keeps its content and the session is not busy. *)
Theorem throwing_handlers_outcome s e :
  hasSpeechSynthesis env = false ->
  dispatch env ClickClear s
  = {| next := with_messages [initialMessage] s;
       trace := if is_accepted (storageConsent env) then [ClearChatHistory] else [];
       completion :=
         Throw (TypeError "Cannot read properties of undefined (reading 'cancel')") |}
  /\ (isLoading s = false -> all_whitespace (input s) = false ->
      dispatch env (Submit e) s
      = {| next := with_isRecording
                     (isRecording s && negb (hasSpeechRecognition env)) s;
           trace := preventDefault e
                    ++ (if hasSpeechRecognition env && isRecording s
                        then [RecognitionStop] else []);
           completion :=
             Throw (TypeError "Cannot read properties of undefined (reading 'cancel')") |}).
Proof.
  intros Hsyn. destruct s as [ms inp ld st rec n]. simpl. split.
  - unfold dispatch, handler, handleClearChat, speechSynthesis_cancel.
    rewrite Hsyn. unfold commit, saveEffect.
    destruct (is_accepted (storageConsent env));
      simpl; rewrite bool_decide_true by done; reflexivity.
  - intros -> Hws.
    unfold dispatch, handler, handleSendMessage. simpl.
    rewrite truthy_trim, Hws. simpl.
    unfold speechSynthesis_cancel, stopRecording. rewrite Hsyn.
    destruct rec, (hasSpeechRecognition env), e; simpl;
      unfold commit; simpl; rewrite bool_decide_true by done; reflexivity.
Qed.

(* ----- dictation -------------------------------------------------------- *)

(** X8: in a browser with speech recognition, a recognition update makes
    no outside call and sets the live text to [liveText results].  If the
    live text is new and not empty, the text field is overwritten with it;
    if it is empty, the text field keeps its content; and if it equals the
    live text already held, nothing changes at all. *)
Theorem dictation_updates_input s (results : list SpeechRecognitionResult) :
  hasSpeechRecognition env = true ->
  trace (dispatch env (RecognitionResult results) s) = []
  /\ (liveText results <> speechText s -> liveText results <> "" ->
      next (dispatch env (RecognitionResult results) s)
      = with_input (liveText results) (with_speechText (liveText results) s))
  /\ (liveText results = "" ->
      next (dispatch env (RecognitionResult results) s) = with_speechText "" s)
  /\ (liveText results = speechText s ->
      next (dispatch env (RecognitionResult results) s) = s).
Proof.
  intros Hrec. destruct s as [ms inp ld st rec n].
  unfold dispatch, handler. rewrite Hrec. simpl.
  unfold onresult, setText, update, commit. simpl.
  split; [done|]. split; [|split].
  - intros Hne Hlt. rewrite bool_decide_false by done.
    unfold speechEffect. simpl. by rewrite (not_blank_truthy _ Hlt).
  - intros ->. case_bool_decide; [congruence | reflexivity].
  - intros ->. by rewrite bool_decide_true.
Qed.

End Outcomes.

(* --------------------------------------------------------------------- *)
(* Further properties of whole sessions                                   *)
(* --------------------------------------------------------------------- *)

(* As unfold_handlers, but the save effect stays folded. *)
Ltac unfold_handler_bodies :=
  unfold handler,
    handleSendMessage, handleSendMessage_then, handleSendMessage_catch,
    handleClearChat, handleToggleRecording, startRecording, stopRecording,
    onresult, onerror, onend, onChange, get_prop, speechSynthesis_cancel,
    speak, preventDefault, issued, settled, setMessages, setInput, setIsLoading,
    setText, setIsRecording, update, emit, call, when, seq, skip, throw in *.

Section Sessions.

Context {PD : Type} (env : Env PD).

Implicit Types (s : State) (ev : Event) (saved : option (list ChatMessage)).
Implicit Types (deliver : Event -> State -> Outcome PD) (t : list (Effect PD)).

Lemma dispatch_delivers : delivers env (dispatch env).
Proof. intros ev s. by right. Qed.

Lemma step_delivers : delivers env (step env).
Proof. intros ev s. apply step_cases. Qed.

Lemma run_Forall (Q : Effect PD -> Prop) deliver evs s :
  delivers env deliver ->
  (forall ev s', Forall Q (trace (dispatch env ev s'))) ->
  Forall Q (run deliver evs s).2.
Proof.
  intros Hd HQ. revert s. induction evs as [|ev evs IH]; intros s; simpl.
  - constructor.
  - apply Forall_app. split; [|apply IH].
    destruct (Hd ev s) as [-> | ->]; [constructor | apply HQ].
Qed.

Lemma session_Forall (Q : Effect PD -> Prop) deliver saved evs :
  delivers env deliver ->
  Forall Q (trace (mount env saved)) ->
  (forall ev s, Forall Q (trace (dispatch env ev s))) ->
  Forall Q (session env deliver saved evs).2.
Proof.
  intros Hd Hm HQ. unfold session. simpl. apply Forall_app. split; [done|].
  by apply run_Forall.
Qed.

Lemma run_reachable deliver saved evs s :
  delivers env deliver ->
  reachable env saved s -> reachable env saved (run deliver evs s).1.
Proof.
  intros Hd. revert s. induction evs as [|ev evs IH]; intros s Hr; simpl; [done|].
  apply IH. destruct (Hd ev s) as [-> | ->]; [done | by constructor].
Qed.

Lemma session_reachable deliver saved evs :
  delivers env deliver -> reachable env saved (session env deliver saved evs).1.
Proof. intros Hd. unfold session. simpl. apply run_reachable; [done | constructor]. Qed.

(* ----- absent capabilities ---------------------------------------------- *)

Lemma dispatch_no_synthesis ev s :
  hasSpeechSynthesis env = false -> no_synthesis_calls (trace (dispatch env ev s)).
Proof.
  intros Hsyn. unfold no_synthesis_calls.
  destruct ev; unfold_handlers; rewrite ?Hsyn; cases; repeat constructor.
Qed.

Lemma mount_no_speech saved :
  no_synthesis_calls (trace (mount env saved))
  /\ no_recognition_calls (trace (mount env saved)).
Proof.
  unfold no_synthesis_calls, no_recognition_calls, mount, saveEffect. simpl.
  destruct (is_accepted (storageConsent env)), (hasSpeechRecognition env),
    (1 <? length (initialMessages env saved))%nat; simpl; split; repeat constructor.
Qed.

(** X6: in a browser without speech synthesis a session never calls
    speechSynthesis.cancel() or speechSynthesis.speak(), whatever events
    arrive and however they are delivered. *)
Theorem without_synthesis saved evs :
  hasSpeechSynthesis env = false ->
  no_synthesis_calls (session env (dispatch env) saved evs).2
  /\ no_synthesis_calls (session env (step env) saved evs).2.
Proof.
  intros Hsyn.
  split; apply session_Forall;
    [ apply dispatch_delivers | apply (proj1 (mount_no_speech saved))
    | intros; by apply dispatch_no_synthesis
    | apply step_delivers | apply (proj1 (mount_no_speech saved))
    | intros; by apply dispatch_no_synthesis ].
Qed.

Lemma dispatch_no_recognition ev s :
  hasSpeechRecognition env = false -> no_recognition_calls (trace (dispatch env ev s)).
Proof.
  intros Hrec. unfold no_recognition_calls.
  destruct ev; unfold_handlers; rewrite ?Hrec; cases; repeat constructor.
Qed.

Lemma dispatch_never_recording ev s :
  hasSpeechRecognition env = false ->
  isRecording s = false /\ speechText s = "" ->
  isRecording (next (dispatch env ev s)) = false
  /\ speechText (next (dispatch env ev s)) = "".
Proof.
  intros Hrec. destruct s as [ms inp ld st rec n]. simpl. intros [-> ->].
  destruct ev; unfold_handlers; rewrite ?Hrec; cases; done.
Qed.

Lemma reachable_never_recording saved s :
  hasSpeechRecognition env = false ->
  reachable env saved s -> isRecording s = false /\ speechText s = "".
Proof.
  intros Hrec. induction 1 as [|s ev _ IH]; [done|].
  by apply dispatch_never_recording.
Qed.

(** X5: in a browser without speech recognition a session never calls
    recognition.start() or recognition.stop(); in every reachable state
    recording is inactive and the live recording text is empty, and a
    click on the microphone button changes nothing. *)
Theorem without_recognition saved evs s :
  hasSpeechRecognition env = false ->
  no_recognition_calls (session env (dispatch env) saved evs).2
  /\ no_recognition_calls (session env (step env) saved evs).2
  /\ (reachable env saved s ->
      isRecording s = false /\ speechText s = ""
      /\ dispatch env ClickMic s = unchanged s).
Proof.
  intros Hrec. split; [|split].
  - apply session_Forall;
      [ apply dispatch_delivers | apply (proj2 (mount_no_speech saved))
      | intros; by apply dispatch_no_recognition ].
  - apply session_Forall;
      [ apply step_delivers | apply (proj2 (mount_no_speech saved))
      | intros; by apply dispatch_no_recognition ].
  - intros Hr. destruct (reachable_never_recording saved s Hrec Hr) as [Hi Ht].
    split; [done|]. split; [done|].
    destruct s as [ms inp ld st rec n]. simpl in *. subst.
    unfold_handlers. rewrite Hrec. reflexivity.
Qed.

(* ----- playback: one utterance at a time ---------------------------------- *)

Lemma speak_follows_cancel_mono t :
  speak_follows_cancel false t = true -> speak_follows_cancel true t = true.
Proof. destruct t as [|[] t]; simpl; done. Qed.

Lemma speak_follows_cancel_app (b : bool) t1 t2 :
  speak_follows_cancel b t1 = true ->
  speak_follows_cancel false t2 = true ->
  speak_follows_cancel b (t1 ++ t2) = true.
Proof.
  revert b. induction t1 as [|e t1 IH]; intros b H1 H2; simpl in *.
  - destruct b; [by apply speak_follows_cancel_mono | done].
  - destruct e; simpl in *; try (by apply IH).
    apply andb_true_iff in H1 as [-> H1]. simpl. by apply IH.
Qed.

Lemma dispatch_speak_follows_cancel ev s :
  speak_follows_cancel false (trace (dispatch env ev s)) = true.
Proof. destruct ev; unfold_handlers; cases; reflexivity. Qed.

Lemma run_speak_follows_cancel deliver evs s :
  delivers env deliver ->
  speak_follows_cancel false (run deliver evs s).2 = true.
Proof.
  intros Hd. revert s. induction evs as [|ev evs IH]; intros s; simpl; [done|].
  apply speak_follows_cancel_app; [|apply IH].
  destruct (Hd ev s) as [-> | ->]; [done | apply dispatch_speak_follows_cancel].
Qed.

(** X7: in every session, however the events are delivered, each call of
    speechSynthesis.speak() comes directly after a call of
    speechSynthesis.cancel(): an utterance is never started on top of
    another one. *)
Theorem one_utterance_at_a_time saved evs :
  speak_follows_cancel false (session env (dispatch env) saved evs).2 = true
  /\ speak_follows_cancel false (session env (step env) saved evs).2 = true.
Proof.
  assert (speak_follows_cancel false (trace (mount env saved)) = true) as Hm.
  { unfold mount, saveEffect. simpl.
    destruct (is_accepted (storageConsent env)), (hasSpeechRecognition env),
      (1 <? length (initialMessages env saved))%nat; reflexivity. }
  split; unfold session; simpl; apply speak_follows_cancel_app; try done;
    apply run_speak_follows_cancel; [apply dispatch_delivers | apply step_delivers].
Qed.

(* ----- recording: stop only what was started ------------------------------ *)

Lemma stop_follows_start_app (a : bool) t1 t2 :
  stop_follows_start a (t1 ++ t2)
  = stop_follows_start a t1 && stop_follows_start (started_after a t1) t2.
Proof.
  revert a. induction t1 as [|e t1 IH]; intros a; simpl; [done|].
  destruct e; simpl; rewrite ?IH; try done.
  by rewrite andb_assoc.
Qed.

(* The recording flag is set only while a start is not yet followed by a
   stop; an event keeps that, and stops only then. *)
Lemma dispatch_stop_follows_start (a : bool) ev s :
  (isRecording s = true -> a = true) ->
  stop_follows_start a (trace (dispatch env ev s)) = true
  /\ (isRecording (next (dispatch env ev s)) = true ->
      started_after a (trace (dispatch env ev s)) = true).
Proof.
  destruct s as [ms inp ld st rec n]. simpl. intros Ha.
  destruct rec; [rewrite (Ha eq_refl) | clear Ha];
    destruct ev; unfold_handlers; cases; split; try done; destruct a; done.
Qed.

Lemma run_stop_follows_start deliver (a : bool) evs s :
  delivers env deliver ->
  (isRecording s = true -> a = true) ->
  stop_follows_start a (run deliver evs s).2 = true.
Proof.
  intros Hd. revert a s. induction evs as [|ev evs IH]; intros a s Ha; simpl; [done|].
  rewrite stop_follows_start_app. apply andb_true_iff.
  destruct (Hd ev s) as [-> | ->]; simpl.
  - split; [done | by apply IH].
  - destruct (dispatch_stop_follows_start a ev s Ha) as [H1 H2].
    split; [done | by apply IH].
Qed.

(** X13: in every session, however the events are delivered, each call of
    recognition.stop() has a call of recognition.start() before it with
    no other stop in between: the engine is never asked to stop twice, nor
    before it was started. *)
Theorem stop_only_after_start saved evs :
  stop_follows_start false (session env (dispatch env) saved evs).2 = true
  /\ stop_follows_start false (session env (step env) saved evs).2 = true.
Proof.
  assert (stop_follows_start false (trace (mount env saved)) = true
          /\ started_after false (trace (mount env saved)) = false) as [Hm Hs].
  { unfold mount, saveEffect. simpl.
    destruct (is_accepted (storageConsent env)), (hasSpeechRecognition env),
      (1 <? length (initialMessages env saved))%nat; split; reflexivity. }
  split; unfold session; cbn [snd]; rewrite stop_follows_start_app, Hm, Hs; simpl;
    apply run_stop_follows_start;
    solve [apply dispatch_delivers | apply step_delivers | discriminate].
Qed.

(* ----- saving ---------------------------------------------------------------- *)

Lemma in_saveEffect (ms X : list ChatMessage) :
  In (SaveChatHistory ms) (saveEffect env X) ->
  ms = X /\ storageConsent env = accepted /\ 2 <= length X.
Proof.
  unfold saveEffect.
  destruct (is_accepted (storageConsent env)) eqn:Hacc; simpl; [|done].
  destruct (1 <? length X)%nat eqn:Hlen; simpl; [|done].
  intros [[= ->] | []]. apply Nat.ltb_lt in Hlen.
  split; [done|]. split; [|lia]. by destruct (storageConsent env).
Qed.

Lemma saveEffect_accepted (X : list ChatMessage) :
  storageConsent env = accepted -> 2 <= length X ->
  saveEffect env X = [SaveChatHistory X].
Proof.
  intros Hacc Hlen. unfold saveEffect. rewrite Hacc. simpl.
  by apply Nat.ltb_lt in Hlen as ->.
Qed.

(* The calls of an event are those of its handler, then those of the save
   effect if the handler called setMessages. *)
Lemma dispatch_trace_split ev s :
  trace (dispatch env ev s)
  = log (handler env ev s {| cur := s; msgsSet := false; log := [] |}).1
    ++ (if msgsSet (handler env ev s {| cur := s; msgsSet := false; log := [] |}).1
        then saveEffect env (messages (next (dispatch env ev s))) else []).
Proof.
  unfold dispatch, commit. simpl.
  destruct (msgsSet _); [|done]. do 2 f_equal.
  case_bool_decide; [done|]. unfold speechEffect.
  by destruct (truthy _).
Qed.

Lemma handler_log_no_save ev s :
  Forall (fun e => is_save e = false)
    (log (handler env ev s {| cur := s; msgsSet := false; log := [] |}).1).
Proof. destruct ev; unfold_handler_bodies; cases; repeat constructor. Qed.

Lemma handler_keeps_messages ev s :
  msgsSet (handler env ev s {| cur := s; msgsSet := false; log := [] |}).1 = false ->
  messages (next (dispatch env ev s)) = messages s.
Proof.
  destruct s as [ms inp ld st rec n].
  destruct ev; unfold_handlers; cases; done.
Qed.

Lemma dispatch_saves ev s (ms : list ChatMessage) :
  In (SaveChatHistory ms) (trace (dispatch env ev s)) ->
  ms = messages (next (dispatch env ev s))
  /\ storageConsent env = accepted /\ 2 <= length ms.
Proof.
  rewrite dispatch_trace_split, in_app_iff. intros [H | H].
  - pose proof (handler_log_no_save ev s) as Hlog.
    rewrite List.Forall_forall in Hlog. by apply Hlog in H.
  - destruct (msgsSet _); [|done].
    apply in_saveEffect in H as (-> & Hacc & Hlen). done.
Qed.

Lemma dispatch_save_allowed ev s :
  Forall (save_allowed env) (trace (dispatch env ev s)).
Proof.
  apply List.Forall_forall. intros [] Hin; try exact I.
  by apply dispatch_saves in Hin as (_ & Hacc & Hlen).
Qed.

Lemma mount_save_allowed saved :
  Forall (save_allowed env) (trace (mount env saved)).
Proof.
  unfold mount. cbn [trace]. rewrite !Forall_app. split; [|split].
  - destruct (is_accepted _); repeat constructor.
  - destruct (hasSpeechRecognition env); repeat constructor.
  - apply List.Forall_forall. intros [] Hin; try exact I.
    apply in_saveEffect in Hin as (-> & Hacc & Hlen). by split.
Qed.

(** X3: whatever a session saves, however its events are delivered, it
    saves with consent accepted and it is a transcript of two messages or
    more; when loadChatHistory hands it back to a later session with the
    same consent, that session starts with exactly this transcript. *)
Theorem saved_history_restorable saved evs (ms : list ChatMessage) :
  In (SaveChatHistory ms) (session env (dispatch env) saved evs).2
  \/ In (SaveChatHistory ms) (session env (step env) saved evs).2 ->
  storageConsent env = accepted
  /\ 2 <= length ms
  /\ messages (next (mount env (Some ms))) = ms.
Proof.
  intros H.
  assert (save_allowed env (SaveChatHistory ms)) as [Hacc Hlen].
  { destruct H as [H | H]; revert H; apply List.Forall_forall;
      apply session_Forall;
      auto using dispatch_delivers, step_delivers, mount_save_allowed,
        dispatch_save_allowed. }
  split; [done|]. split; [done|].
  unfold mount, initialMessages. simpl. rewrite Hacc. simpl.
  destruct ms; [simpl in Hlen; lia | done].
Qed.

(** X4: an event makes at most one save call, and what it saves is the
    transcript as the event leaves it; with consent accepted, every event
    that appends a message to a non-empty transcript saves the result. *)
Theorem transcript_change_is_saved ev s :
  length (List.filter is_save (trace (dispatch env ev s))) <= 1
  /\ (forall ms, In (SaveChatHistory ms) (trace (dispatch env ev s)) ->
       ms = messages (next (dispatch env ev s)))
  /\ (storageConsent env = accepted -> messages s <> [] ->
      forall m, messages (next (dispatch env ev s)) = messages s ++ [m] ->
                In (SaveChatHistory (messages s ++ [m])) (trace (dispatch env ev s))).
Proof.
  split; [|split].
  - rewrite dispatch_trace_split, List.filter_app, length_app.
    pose proof (handler_log_no_save ev s) as Hlog.
    assert (List.filter is_save
              (log (handler env ev s {| cur := s; msgsSet := false; log := [] |}).1)
            = []) as ->.
    { induction Hlog as [|e l He _ IH]; simpl; [done | by rewrite He]. }
    simpl. destruct (msgsSet _); [|simpl; lia].
    unfold saveEffect. destruct (_ && _); simpl; lia.
  - intros ms Hin. by apply dispatch_saves in Hin as [-> _].
  - intros Hacc Hne m Hm. rewrite dispatch_trace_split, in_app_iff. right.
    destruct (msgsSet _) eqn:Hset.
    + rewrite Hm, saveEffect_accepted; [by left | done |].
      rewrite length_app. simpl. destruct (messages s); [done | simpl; lia].
    + apply handler_keeps_messages in Hset. rewrite Hset in Hm.
      apply (f_equal length) in Hm. rewrite length_app in Hm. simpl in Hm. lia.
Qed.

(* ----- what the engine reports ---------------------------------------------- *)

(** X14: in a browser with speech recognition, an engine error is logged
    and changes nothing, so the recording flag stays as it is; the
    engine's end notification clears the recording flag and nothing else;
    after it, in an idle session, a click on the microphone button starts
    capture anew, whether or not recording was on before the engine
    ended. *)
Theorem engine_notifications s error :
  hasSpeechRecognition env = true ->
  dispatch env (RecognitionError error) s
  = {| next := s; trace := [ConsoleError "Speech recognition error:" error];
       completion := Normal |}
  /\ dispatch env RecognitionEnd s
     = {| next := with_isRecording false s; trace := []; completion := Normal |}
  /\ (isLoading s = false ->
      step env ClickMic (next (dispatch env RecognitionEnd s))
      = {| next := with_isRecording true (with_speechText "" s);
           trace := [RecognitionStart]; completion := Normal |}).
Proof.
  intros Hrec. destruct s as [ms inp ld st rec n]. simpl.
  split; [|split; [|intros ->]];
    unfold_handlers; simpl; rewrite Hrec; simpl;
    try rewrite bool_decide_true by done; cases; reflexivity.
Qed.

End Sessions.

(* --------------------------------------------------------------------- *)
(* The further properties at sample sessions                              *)
(* --------------------------------------------------------------------- *)

(** X1 at a sample session: the awaited response arrives. *)
Lemma generation_success_witness :
  messages (next (dispatch (browser accepted) (ResponseFulfilled "Rest.")
                   (awaiting (browser accepted) "hi")))
  = [initialMessage; {| role := user; content := "hi" |};
     {| role := model; content := "Rest." |}]
  /\ isLoading (next (dispatch (browser accepted) (ResponseFulfilled "Rest.")
                       (awaiting (browser accepted) "hi"))) = false.
Proof.
  destruct (generation_success (browser accepted) (awaiting (browser accepted) "hi")
              "Rest.") as (Hnext & _ & _).
  - simpl. lia.
  - rewrite Hnext. split; reflexivity.
Defined.

(** X2 at a sample session: a dictated question is submitted while the
    recording is still on. *)
Lemma submit_outcome_witness :
  next (dispatch (browser accepted) (Submit (Some formEvent))
          (with_isRecording true (dictated (browser accepted) "hi")))
  = {| messages := [initialMessage; {| role := user; content := "hi" |}];
       input := ""; isLoading := true; speechText := "";
       isRecording := false; inFlight := 1 |}
  /\ In RecognitionStop
       (trace (dispatch (browser accepted) (Submit (Some formEvent))
                 (with_isRecording true (dictated (browser accepted) "hi")))).
Proof.
  destruct (submit_outcome (browser accepted)
              (with_isRecording true (dictated (browser accepted) "hi"))
              (Some formEvent) eq_refl eq_refl eq_refl)
    as (Hnext & _ & Hstop & _).
  split; [exact Hnext | exact (Hstop eq_refl eq_refl)].
Defined.

(** X3 at a sample session: what the submit of a dictated question saved. *)
Lemma saved_history_restorable_witness :
  2 <= length [initialMessage; {| role := user; content := "hi" |}]
  /\ messages (next (mount (browser accepted)
                      (Some [initialMessage; {| role := user; content := "hi" |}])))
     = [initialMessage; {| role := user; content := "hi" |}].
Proof.
  destruct (saved_history_restorable (browser accepted) None
              [ClickMic; RecognitionResult [segment true "hi"]; ClickMic; Submit None]
              [initialMessage; {| role := user; content := "hi" |}])
    as (_ & Hlen & Hrestore).
  - right. vm_compute. tauto.
  - split; [exact Hlen | exact Hrestore].
Defined.

(** X4 at a sample session: the response appended to the transcript is
    saved with it. *)
Lemma transcript_change_is_saved_witness :
  In (SaveChatHistory
        (messages (awaiting (browser accepted) "hi")
         ++ [{| role := model; content := "Rest." |}]))
     (trace (dispatch (browser accepted) (ResponseFulfilled "Rest.")
               (awaiting (browser accepted) "hi"))).
Proof.
  destruct (transcript_change_is_saved (browser accepted)
              (ResponseFulfilled "Rest.") (awaiting (browser accepted) "hi"))
    as (_ & _ & Hsave).
  apply Hsave; [reflexivity | simpl; discriminate | reflexivity].
Defined.

(** X5 at a sample session: clicks on the microphone button in a browser
    without speech recognition. *)
Lemma without_recognition_witness :
  no_recognition_calls
    (session (deaf_browser accepted) (step (deaf_browser accepted)) None
       [ClickMic; ClickMic; ClickClear]).2
  /\ dispatch (deaf_browser accepted) ClickMic (fresh (deaf_browser accepted))
     = unchanged (fresh (deaf_browser accepted)).
Proof.
  destruct (without_recognition (deaf_browser accepted) None
              [ClickMic; ClickMic; ClickClear] (fresh (deaf_browser accepted))
              eq_refl) as (_ & Hcalls & Hstate).
  split; [exact Hcalls|].
  apply Hstate. unfold fresh. constructor.
Defined.

(** X6 at a sample session: dictation, a submit and a clear in a browser
    without speech synthesis. *)
Lemma without_synthesis_witness :
  no_synthesis_calls
    (session (mute_browser accepted) (step (mute_browser accepted)) None
       [ClickMic; RecognitionResult [segment true "hi"]; Submit None; ClickClear]).2.
Proof.
  apply (without_synthesis (mute_browser accepted) None
           [ClickMic; RecognitionResult [segment true "hi"]; Submit None; ClickClear]
           eq_refl).
Defined.

(** X8 at a sample session: a second, longer update while recording. *)
Lemma dictation_updates_input_witness :
  input (next (dispatch (browser accepted)
                 (RecognitionResult [segment true "headache "; segment false "rel"])
                 (dictated (browser accepted) "head")))
  = "headache rel".
Proof.
  destruct (dictation_updates_input (browser accepted)
              (dictated (browser accepted) "head")
              [segment true "headache "; segment false "rel"] eq_refl)
    as (_ & Hnew & _).
  rewrite Hnew; [reflexivity | simpl; discriminate | simpl; discriminate].
Defined.

(** X9 at a sample session: clear while a response is awaited. *)
Lemma clear_outcome_witness :
  dispatch (browser accepted) ClickClear (awaiting (browser accepted) "hi")
  = {| next := with_messages [initialMessage] (awaiting (browser accepted) "hi");
       trace := [ClearChatHistory; SynthCancel]; completion := Normal |}.
Proof.
  apply (clear_outcome (browser accepted) (awaiting (browser accepted) "hi") eq_refl).
Defined.

(** X10 at a sample session: clear while a response is awaited, then the
    response. *)
Lemma response_after_clear_witness :
  messages (next (dispatch (browser accepted) (ResponseFulfilled "Rest.")
                   (next (dispatch (browser accepted) ClickClear
                            (awaiting (browser accepted) "hi")))))
  = [initialMessage; {| role := model; content := "Rest." |}].
Proof.
  destruct (response_after_clear (browser accepted)
              (awaiting (browser accepted) "hi") "Rest." "offline")
    as (Hmsgs & _ & _).
  - simpl. lia.
  - exact Hmsgs.
Defined.

(** X11 at a sample session: the text field holds two spaces. *)
Lemma send_button_matches_guard_witness :
  send_disabled (render (with_input "  " (fresh (browser accepted)))) = true
  /\ next (dispatch (browser accepted) (Submit None)
             (with_input "  " (fresh (browser accepted))))
     = with_input "  " (fresh (browser accepted)).
Proof.
  destruct (send_button_matches_guard (browser accepted)
              (with_input "  " (fresh (browser accepted))) None)
    as (Hbutton & Hreject & _).
  split; [rewrite Hbutton; reflexivity|].
  apply Hreject. reflexivity.
Defined.

(** X12 at a sample session: clear while recording, in a browser without
    speech synthesis. *)
Lemma throwing_handlers_outcome_witness :
  isRecording (next (dispatch (mute_browser accepted) ClickClear
                       (with_isRecording true (dictated (mute_browser accepted) "hi"))))
  = true
  /\ messages (next (dispatch (mute_browser accepted) ClickClear
                      (with_isRecording true (dictated (mute_browser accepted) "hi"))))
     = [initialMessage].
Proof.
  destruct (throwing_handlers_outcome (mute_browser accepted)
              (with_isRecording true (dictated (mute_browser accepted) "hi"))
              None eq_refl) as (Hclear & _).
  rewrite Hclear. split; reflexivity.
Defined.

(** X14 at a sample session: the engine ends on its own while recording,
    then the user clicks the microphone button. *)
Lemma engine_notifications_witness :
  trace (step (browser accepted) ClickMic
           (next (dispatch (browser accepted) RecognitionEnd
                    (with_isRecording true (dictated (browser accepted) "hi")))))
  = [RecognitionStart].
Proof.
  destruct (engine_notifications (browser accepted)
              (with_isRecording true (dictated (browser accepted) "hi"))
              "no-speech" eq_refl) as (_ & _ & Hclick).
  rewrite Hclick; reflexivity.
Defined.
